(** * Session roster and turn handling of the multiplayer game framework

    A shallow embedding of [src/GameCard.js] (the session card: join,
    delete, and the controls that offer them) and of the final
    [TicTacToe] component of the tutorial (the move handler, the turn
    test and the other-player lookup), then of its listener and of the
    button-mashing component of step 2.3, followed by the properties
    established about them.

    Conventions.
    - A user id, a session id and a game type are JavaScript strings.
    - The roster [session.users] is a JavaScript array of strings, a
      [list string] in join order.
    - A JavaScript exception ([TypeError]) is the result [None] of a
      function into [option].
    - The Firebase Realtime Database is modelled by the value it stores
      under a reference; [set], [remove] and [transaction] follow their
      documented behaviour and one call is one atomic step. *)

From stdpp Require Import base strings list gmap.
From Stdlib Require Import ZArith Lia Ascii.

(** ** JavaScript values and array primitives *)
Module Js.

(** Primitive values that occur in a board cell or as a turn holder. *)
Inductive Prim : Type :=
| Undefined
| Null
| Str (s : string).

#[global] Instance Prim_eq_dec : EqDecision Prim.
Proof. solve_decision. Defined.

(** [xs.indexOf(x)] on an array of strings: the index of the first
    element strictly equal to [x], and [-1] when there is none. *)
Fixpoint indexOf_from (k : Z) (xs : list string) (x : string) : Z :=
  match xs with
  | [] => (-1)%Z
  | y :: ys => if decide (y = x) then k else indexOf_from (k + 1)%Z ys x
  end.

Definition indexOf (xs : list string) (x : string) : Z := indexOf_from 0%Z xs x.

(** [xs.push(x)]: the array afterwards. *)
Definition push (xs : list string) (x : string) : list string := xs ++ [x].

(** [a[i] = v] on an array: an index inside the array replaces the
    element, an index at or past the end grows the array, the skipped
    positions reading as [undefined]. *)
Definition array_set (i : nat) (v : Prim) (a : list Prim) : list Prim :=
  if decide (i < length a)
  then <[i := v]> a
  else a ++ replicate (i - length a) Undefined ++ [v].

End Js.

(** ** Firebase Realtime Database primitives *)
Module Firebase.
Import Js.

(** A value stored under a key of a session document. *)
Inductive Value : Type :=
| VPrim (p : Prim)
| VArray (a : list Prim).

#[global] Instance Value_eq_dec : EqDecision Value.
Proof. solve_decision. Defined.

(** The object stored at [/session/<id>/]. *)
Abbreviation Document := (gmap string Value).

(** [ref.set(data)]: the location afterwards holds [data] and nothing
    else; a property whose value is [null] is not stored. An array is
    taken as the store hands it back when it is dense and not empty;
    what is stated below about a delivered board is stated for such
    arrays. *)
Definition set (data : Document) (stored : Document) : Document :=
  filter (λ kv, kv.2 ≠ VPrim Null) data.

(** [ref.remove()] of the child [key]. *)
Definition remove {A : Type} (key : string) (stored : gmap string A) : gmap string A :=
  delete key stored.

(** [ref.transaction(update)] at a location holding [current]: the
    update function is applied to the current value and its result
    is committed. At a location that holds nothing the update function
    receives [null]; [joinSession] below treats that case itself. *)
Definition transaction {A : Type} (update : A → A) (current : A) : A :=
  update current.

(** Modelled from the spec: [GameDatabase.setGameData] (the file
    [GameDatabase.js] is not among the sources). The tutorial and the
    specification describe it as updating only the key and value
    pairs given, without clearing the keys not mentioned. *)
Definition setGameData (data : Document) (stored : Document) : Document :=
  data ∪ stored.

End Firebase.

(** ** [src/GameCard.js] *)
Module GameCard.
Import Js.

(** The entry of [gameData] for one game type, as far as the card's
    logic reads it. *)
Record GameInfo : Type := {
  minUsers : Z;
  maxUsers : Z;
}.

(** [gameData]: game type to entry ([gameData.js] is not among the
    sources; the table is a parameter of every function reading it). *)
Abbreviation GameData := (gmap string GameInfo).

(** [props.session]. *)
Record Session : Type := {
  session_id : string;
  session_type : string;
  creator : string;
  users : list string;
  timestamp : Z;
}.

Definition with_users (us : list string) (s : Session) : Session :=
  {| session_id := session_id s; session_type := session_type s;
     creator := creator s; users := us; timestamp := timestamp s |}.

(** [/session-metadata/], keyed by session id. *)
Abbreviation Metadata := (gmap string Session).

(** [getGamePath()] *)
Definition getGamePath (s : Session) : string :=
  "/" +:+ session_type s +:+ "/" +:+ session_id s.

(** The update function [joinSession] hands to [transaction]:
    [(users) => { if (users.indexOf(uid) < 0) { users.push(uid); } return users; }] *)
Definition joinSession_update (uid : string) (users : list string) : list string :=
  if decide (indexOf users uid < 0)%Z then push users uid else users.

(** [joinSession()], [uid] being [firebase.auth().currentUser.uid]:
    a transaction on [/session-metadata/<id>/users]. The update
    function receives [null], and [users.indexOf] throws, when that
    location holds nothing: when the session is gone, and when the
    session is there without a roster (the store keeps no empty
    array, so an empty roster is no [users] child at all). *)
Definition joinSession (uid : string) (s : Session) (db : Metadata) : option Metadata :=
  match db !! session_id s with
  | None => None
  | Some m =>
      match users m with
      | [] => None
      | _ :: _ =>
          Some (<[session_id s :=
                   with_users (Firebase.transaction (joinSession_update uid) (users m)) m]> db)
      end
  end.

(** [deleteSession()]: removes [/session-metadata/<id>]. *)
Definition deleteSession (s : Session) (db : Metadata) : Metadata :=
  Firebase.remove (session_id s) db.

(** [isGameCreator()] *)
Definition isGameCreator (uid : string) (s : Session) : bool :=
  bool_decide (uid = creator s).

(** [isInSession()] *)
Definition isInSession (uid : string) (s : Session) : bool :=
  bool_decide (indexOf (users s) uid >= 0)%Z.

(** [shouldShowStartButton()]; [gameData[type]] of an unregistered
    type is [undefined] and reading [minUsers] from it throws. (A
    type that names a property every object inherits, [toString] for
    one, finds that property instead; such types lie outside the table
    as modelled here, and what is stated below is stated for types
    that have an entry.) *)
Definition shouldShowStartButton (gd : GameData) (uid : string) (s : Session) : option bool :=
  g ← gd !! session_type s;
  Some (isInSession uid s && bool_decide (Z.of_nat (length (users s)) >= minUsers g)%Z).

(** [isFull()] *)
Definition isFull (gd : GameData) (s : Session) : option bool :=
  g ← gd !! session_type s;
  Some (bool_decide (Z.of_nat (length (users s)) >= maxUsers g)%Z).

(** The two controls of the card's action row. *)
Inductive JoinOrStart : Type :=
| StartGame (pathname : string)
| JoinButton (disabled : bool) (label : string).

Record Card : Type := {
  joinOrStartButton : JoinOrStart;
  deleteDisabled : bool;
}.

(** [render()], restricted to the action row. *)
Definition render (gd : GameData) (uid : string) (s : Session) : option Card :=
  start ← shouldShowStartButton gd uid s;
  button ←
    (if start : bool then Some (StartGame (getGamePath s))
     else
       full ← isFull gd s;
       Some (JoinButton (isInSession uid s || full)
                        (if full : bool then "Game is full" else "Join")));
  Some {| joinOrStartButton := button;
          deleteDisabled := negb (isGameCreator uid s) |}.

(** The join control is on the card and can be pressed. *)
Definition joinEnabled (c : Card) : bool :=
  match joinOrStartButton c with
  | JoinButton d _ => negb d
  | StartGame _ => false
  end.

End GameCard.

(** ** The [TicTacToe] component (final listing of the tutorial) *)
Module TicTacToe.
Import Js Firebase.

(** What the component reads through its [GameComponent] getters:
    [getMyUserId()], [getSessionCreatorUserId()], [getSessionUserIds()]. *)
Record Props : Type := {
  myUserId : string;
  sessionCreatorUserId : string;
  sessionUserIds : list string;
}.

(** [this.state] *)
Record State : Type := {
  cellState : list Prim;
  currentUser : Prim;
}.

(** The state set up by the constructor. *)
Definition initialState (p : Props) : State :=
  {| cellState := replicate 9 (Str ".");
     currentUser := Str (sessionCreatorUserId p) |}.

(** [isMyTurn()] *)
Definition isMyTurn (p : Props) (st : State) : bool :=
  bool_decide (Str (myUserId p) = currentUser st).

(** The loop of [getOtherUserId()] over [user_ids]: the first entry
    that differs from the caller's id, [null] when there is none. *)
Fixpoint firstOther (me : string) (user_ids : list string) : Prim :=
  match user_ids with
  | [] => Null
  | u :: rest => if decide (u ≠ me) then Str u else firstOther me rest
  end.

(** [getOtherUserId()] *)
Definition getOtherUserId (p : Props) : Prim :=
  firstOther (myUserId p) (sessionUserIds p).

(** The symbol the caller marks. *)
Definition mySymbol (p : Props) : Prim :=
  if decide (myUserId p = sessionCreatorUserId p) then Str "X" else Str "O".

(** [handleButtonClick(i)]: the array held in [this.state.cellState]
    is updated in place, and the object
    [{cell_state: cellState, current_user: this.getOtherUserId()}]
    is written with [set] to [/session/<id>/], which holds [remote]
    at that moment. The result is the component state and the
    document stored afterwards. *)
Definition handleButtonClick (p : Props) (st : State) (i : nat) (remote : Document)
  : State * Document :=
  let cellState' := array_set i (mySymbol p) (cellState st) in
  ({| cellState := cellState'; currentUser := currentUser st |},
   Firebase.set {[ "cell_state" := VArray cellState';
                   "current_user" := VPrim (getOtherUserId p) ]} remote).

(** One rendered board button. *)
Record Button : Type := {
  disabled : bool;
  label : Prim;
}.

(** The [buttons] array built by [render()]. *)
Definition render (p : Props) (st : State) : list Button :=
  map (λ state, {| disabled := negb (isMyTurn p st) || bool_decide (state ≠ Str ".");
                   label := state |})
      (cellState st).

End TicTacToe.

(** ** Concrete sessions used by the examples below *)
Module Scenario.
Import Js Firebase GameCard TicTacToe.

(** The registry of the tutorial: a two-player tic-tac-toe and a chat
    room for one to ten users. *)
Definition gameData : GameData :=
  {[ "tictactoe" := {| minUsers := 2; maxUsers := 2 |};
     "chatroom" := {| minUsers := 1; maxUsers := 10 |} ]}.

Definition ticTacToeSession (us : list string) : Session :=
  {| session_id := "s1"; session_type := "tictactoe"; creator := "alice";
     users := us; timestamp := 0 |}.

Definition metadata (us : list string) : Metadata :=
  {[ "s1" := ticTacToeSession us ]}.

Definition aliceProps : Props :=
  {| myUserId := "alice"; sessionCreatorUserId := "alice";
     sessionUserIds := ["alice"; "bob"] |}.

Definition bobProps : Props :=
  {| myUserId := "bob"; sessionCreatorUserId := "alice";
     sessionUserIds := ["alice"; "bob"] |}.

(** Alice in a session whose roster holds nobody else. *)
Definition aliceAlone : Props :=
  {| myUserId := "alice"; sessionCreatorUserId := "alice";
     sessionUserIds := ["alice"] |}.

(** Alice looking at a session whose roster holds only bob. *)
Definition aliceOutside : Props :=
  {| myUserId := "alice"; sessionCreatorUserId := "bob";
     sessionUserIds := ["bob"] |}.

(** The board after the creator marked the centre. *)
Definition centreMarked : list Prim :=
  <[4 := Str "X"]> (replicate 9 (Str ".")).

(** The component state both players hold once that move was
    delivered: it is bob's turn. *)
Definition afterCentre : State :=
  {| cellState := centreMarked; currentUser := Str "bob" |}.

(** The document stored at that moment; the key [text] was written
    earlier by another writer of the same location. *)
Definition storedBoard : Document :=
  {[ "cell_state" := VArray centreMarked;
     "current_user" := VPrim (Str "bob");
     "text" := VPrim (Str "Hello, World!") ]}.

End Scenario.

(** ** Further parts of the sources *)

(** Reading a property of the object a listener receives. *)
Module Snapshot.
Import Js Firebase.

(** [data.key]: the value stored under the key, [undefined] when the
    object has no such property. *)
Definition prop (data : Document) (key : string) : Value :=
  default (VPrim Undefined) (data !! key).

End Snapshot.

(** The roster under several joins. *)
Module Roster.
Import Js GameCard.

(** The rosters committed one after the other when the users [uids]
    join, each through the transaction of [joinSession], in the order
    in which the store commits them. *)
Definition joinAll (users : list string) (uids : list string) : list string :=
  foldl (λ us uid, Firebase.transaction (joinSession_update uid) us) users uids.

End Roster.

(** The tic-tac-toe data model (step 3 of the tutorial) and the
    listener of the final listing. *)
Module TicTacToeData.
Import Js Firebase TicTacToe.

(** "The [cell_state] is a nine element array of [X]s, [O]s, or [.]
    (empty)." *)
Definition validBoard (board : list Prim) : Prop :=
  length board = 9 ∧ Forall (λ c, c ∈ [Str "."; Str "X"; Str "O"]) board.

#[global] Instance validBoard_dec (board : list Prim) : Decision (validBoard board).
Proof. unfold validBoard. apply _. Defined.

(** [this.state] as [setState] leaves it in [onSessionDataChanged]:
    each field holds whatever the delivered object has under the key. *)
Record RawState : Type := {
  rawCellState : Value;
  rawCurrentUser : Value;
}.

(** [onSessionDataChanged(data)]. A location that holds nothing
    delivers [null] (the store keeps no empty object), and reading
    [data.cell_state] from it throws. *)
Definition onSessionDataChanged (data : Document) : option RawState :=
  if decide (data = ∅) then None
  else Some {| rawCellState := Snapshot.prop data "cell_state";
               rawCurrentUser := Snapshot.prop data "current_user" |}.

(** The component states of [TicTacToe.State] among the raw ones: the
    board is an array (on anything else [render] and the move handler
    throw) and the turn holder a primitive value. *)
Definition toState (r : RawState) : option State :=
  match rawCellState r, rawCurrentUser r with
  | VArray board, VPrim holder => Some {| cellState := board; currentUser := holder |}
  | _, _ => None
  end.

End TicTacToeData.

(** The button-mashing component (step 2.3 of the class-based
    tutorial). *)
Module ButtonMash.
Import Js Firebase.

(** [this.state] *)
Record State : Type := {
  last_user_id : Value;
}.

(** The state set up by the constructor: [{ last_user_id: null }]. *)
Definition initialState : State := {| last_user_id := VPrim Null |}.

(** [onSessionDataChanged(data)] *)
Definition onSessionDataChanged (data : Document) : option State :=
  if decide (data = ∅) then None
  else Some {| last_user_id := Snapshot.prop data "user_id" |}.

(** [handleButtonClick()], [me] being [getMyUserId()]: the document
    stored afterwards. *)
Definition handleButtonClick (me : string) (remote : Document) : Document :=
  Firebase.set {[ "user_id" := VPrim (Str me) ]} remote.

(** The message built by [render()]; [getName] is [UserApi.getName]
    ([UserApi.js] is not among the sources). *)
Definition render (getName : Value → string) (st : State) : string :=
  (if decide (last_user_id st ≠ VPrim Null) then getName (last_user_id st) else "No one")
  +:+ " clicked the button".

End ButtonMash.

(** * Properties *)

(** ** Array primitives *)
Section JsFacts.
Import Js.

Lemma indexOf_from_notin (k : Z) (xs : list string) (x : string) :
  x ∉ xs → indexOf_from k xs x = (-1)%Z.
Proof.
  revert k. induction xs as [|y ys IH]; intros k Hx; simpl; [done|].
  apply not_elem_of_cons in Hx as [Hne Hys].
  destruct (decide (y = x)) as [->|_]; [done|]. by apply IH.
Qed.

Lemma indexOf_from_in (k : Z) (xs : list string) (x : string) :
  x ∈ xs → (k ≤ indexOf_from k xs x)%Z.
Proof.
  revert k. induction xs as [|y ys IH]; intros k Hx; simpl.
  - by apply elem_of_nil in Hx.
  - destruct (decide (y = x)) as [->|Hne]; [lia|].
    apply elem_of_cons in Hx as [->|Hys]; [done|].
    specialize (IH (k + 1)%Z Hys). lia.
Qed.

Lemma indexOf_neg (xs : list string) (x : string) :
  (indexOf xs x < 0)%Z ↔ x ∉ xs.
Proof.
  unfold indexOf. split.
  - intros Hlt Hin. pose proof (indexOf_from_in 0 xs x Hin). lia.
  - intros Hx. rewrite indexOf_from_notin by done. lia.
Qed.

Lemma indexOf_nonneg (xs : list string) (x : string) :
  (indexOf xs x >= 0)%Z ↔ x ∈ xs.
Proof.
  destruct (decide (x ∈ xs)) as [Hin|Hnin].
  - split; [done|]. intros _. pose proof (indexOf_from_in 0 xs x Hin).
    unfold indexOf. lia.
  - split; [|done]. intros Hge. apply indexOf_neg in Hnin. lia.
Qed.

Lemma array_set_lookup (i : nat) (v : Prim) (a : list Prim) :
  array_set i v a !! i = Some v.
Proof.
  unfold array_set. destruct (decide (i < length a)) as [Hlt|Hge].
  - by apply list_lookup_insert_eq.
  - rewrite lookup_app_r by lia.
    rewrite lookup_app_r by (rewrite length_replicate; lia).
    rewrite length_replicate.
    by replace (i - length a - (i - length a)) with 0 by lia.
Qed.

Lemma array_set_lookup_ne (i j : nat) (v : Prim) (a : list Prim) :
  i ≠ j → j < length a → array_set i v a !! j = a !! j.
Proof.
  intros Hne Hj. unfold array_set. destruct (decide (i < length a)).
  - by apply list_lookup_insert_ne.
  - by apply lookup_app_l.
Qed.

Lemma array_set_length_in (i : nat) (v : Prim) (a : list Prim) :
  i < length a → length (array_set i v a) = length a.
Proof.
  intros Hi. unfold array_set. rewrite decide_True by done. apply length_insert.
Qed.

End JsFacts.

(** ** The roster under [joinSession] *)
Section Roster.
Import Js GameCard.

Lemma joinSession_update_in (uid : string) (users : list string) :
  uid ∈ users → joinSession_update uid users = users.
Proof.
  intros Hin. unfold joinSession_update.
  rewrite decide_False; [done|]. rewrite indexOf_neg. tauto.
Qed.

Lemma joinSession_update_notin (uid : string) (users : list string) :
  uid ∉ users → joinSession_update uid users = users ++ [uid].
Proof.
  intros Hnin. unfold joinSession_update, push.
  rewrite decide_True; [done|]. by rewrite indexOf_neg.
Qed.

Lemma joinSession_update_elem (uid : string) (users : list string) :
  uid ∈ joinSession_update uid users.
Proof.
  destruct (decide (uid ∈ users)) as [Hin|Hnin].
  - by rewrite joinSession_update_in.
  - rewrite joinSession_update_notin by done. set_solver.
Qed.

Lemma joinSession_update_NoDup_1 (uid : string) (users : list string) :
  NoDup users → NoDup (joinSession_update uid users).
Proof.
  intros Hnd. destruct (decide (uid ∈ users)) as [Hin|Hnin].
  - by rewrite joinSession_update_in.
  - rewrite joinSession_update_notin by done.
    apply NoDup_app. split_and!; [done| |apply NoDup_singleton].
    intros x Hx Hx'. apply list_elem_of_singleton in Hx' as ->. done.
Qed.

Lemma with_users_id (m : Session) : with_users (users m) m = m.
Proof. by destruct m. Qed.

Lemma users_with_users (us : list string) (m : Session) : users (with_users us m) = us.
Proof. done. Qed.

Lemma with_users_twice (us us' : list string) (m : Session) :
  with_users us (with_users us' m) = with_users us m.
Proof. done. Qed.

Lemma joinSession_Some (uid : string) (s : Session) (db : gmap string Session) (m : Session) :
  db !! session_id s = Some m → users m ≠ [] →
  joinSession uid s db
  = Some (<[session_id s := with_users (joinSession_update uid (users m)) m]> db).
Proof.
  intros Hm Hne. unfold joinSession, Firebase.transaction. rewrite Hm.
  by destruct (users m).
Qed.

Lemma joinSession_no_roster (uid : string) (s : Session) (db : gmap string Session) (m : Session) :
  db !! session_id s = Some m → users m = [] → joinSession uid s db = None.
Proof. intros Hm Hnil. unfold joinSession. by rewrite Hm, Hnil. Qed.

Lemma joinSession_update_nonempty (uid : string) (users : list string) :
  joinSession_update uid users ≠ [].
Proof.
  intros Heq. pose proof (joinSession_update_elem uid users) as Hin.
  rewrite Heq in Hin. by apply elem_of_nil in Hin.
Qed.

End Roster.

(** ** Claims about the roster *)
Section RosterClaims.
Import Js GameCard.

(** C8. The update function of [joinSession] only ever appends: when
    the caller's id already occurs in the roster it returns the roster
    as it is, otherwise the roster with the id as its new last
    element. In both cases the earlier entries stay where they were:
    the input is the initial segment of the result. *)
Theorem joinSession_update_appends (uid : string) (users : list string) :
  joinSession_update uid users = (if decide (uid ∈ users) then users else users ++ [uid])
  ∧ take (length users) (joinSession_update uid users) = users
  ∧ last (joinSession_update uid users)
    = (if decide (uid ∈ users) then last users else Some uid).
Proof.
  destruct (decide (uid ∈ users)) as [Hin|Hnin].
  - rewrite joinSession_update_in by done. split_and!; [done| |done].
    by rewrite firstn_all.
  - rewrite joinSession_update_notin by done. split_and!; [done| |].
    + by rewrite take_app_length.
    + apply last_snoc.
Qed.

(** C4. A roster without duplicates stays without duplicates under
    the update function of [joinSession], for one application with
    any id and for any sequence of applications (each an atomic
    transaction, in whatever order the store commits them). *)
Theorem joinSession_update_NoDup (users : list string) :
  NoDup users →
  (∀ uid, NoDup (joinSession_update uid users))
  ∧ (∀ uids,
       NoDup (foldl (λ us uid, Firebase.transaction (joinSession_update uid) us)
                    users uids)).
Proof.
  intros Hnd. split.
  - intros uid. by apply joinSession_update_NoDup_1.
  - intros uids. revert users Hnd.
    induction uids as [|uid uids IH]; intros users Hnd; simpl; [done|].
    apply IH. unfold Firebase.transaction. by apply joinSession_update_NoDup_1.
Qed.

Lemma joinSession_update_NoDup_witness :
  NoDup (foldl (λ us uid, Firebase.transaction (joinSession_update uid) us)
               ["alice"] ["bob"; "alice"; "carol"; "bob"]).
Proof.
  apply (joinSession_update_NoDup ["alice"]). apply NoDup_singleton.
Defined.

(** C5. Joining is idempotent. If the id is already in the roster the
    update function returns the roster unchanged; applying it twice
    with one id gives what applying it once gives. On a session whose
    stored roster holds the id, [joinSession] commits and leaves the
    metadata untouched; on a session with any stored roster it commits
    both times, the second call leaving the metadata exactly as the
    first left it. (A session stored without a roster has no member
    to join again: there the update function receives [null] and the
    call throws.) *)
Theorem joinSession_idempotent (uid : string) (users0 : list string) :
  (uid ∈ users0 → joinSession_update uid users0 = users0)
  ∧ joinSession_update uid (joinSession_update uid users0) = joinSession_update uid users0
  ∧ (∀ (s : Session) (db : gmap string Session) (m : Session),
       db !! session_id s = Some m → users m = users0 →
       (uid ∈ users0 → joinSession uid s db = Some db)
       ∧ (users0 ≠ [] →
          ∃ db1, joinSession uid s db = Some db1 ∧ joinSession uid s db1 = Some db1)
       ∧ (users0 = [] → joinSession uid s db = None)).
Proof.
  split_and!.
  - apply joinSession_update_in.
  - apply joinSession_update_in, joinSession_update_elem.
  - intros s db m Hm <-. split_and!.
    + intros Hin. rewrite (joinSession_Some uid s db m Hm).
      * rewrite joinSession_update_in by done.
        rewrite with_users_id. f_equal. by apply insert_id.
      * intros Hnil. rewrite Hnil in Hin. by apply elem_of_nil in Hin.
    + intros Hne. eexists. split; [by apply joinSession_Some|].
      erewrite joinSession_Some;
        [|apply lookup_insert_eq|rewrite users_with_users; apply joinSession_update_nonempty].
      rewrite users_with_users.
      rewrite (joinSession_update_in uid (joinSession_update _ _))
        by apply joinSession_update_elem.
      by rewrite with_users_twice, insert_insert_eq.
    + intros Hnil. by apply (joinSession_no_roster uid s db m).
Qed.

Lemma joinSession_idempotent_witness :
  joinSession_update "bob" ["alice"; "bob"] = ["alice"; "bob"]
  ∧ joinSession "bob" (Scenario.ticTacToeSession ["alice"])
                (Scenario.metadata ["alice"; "bob"])
    = Some (Scenario.metadata ["alice"; "bob"])
  ∧ ∃ db1, joinSession "bob" (Scenario.ticTacToeSession ["alice"])
                       (Scenario.metadata ["alice"; "bob"]) = Some db1
           ∧ joinSession "bob" (Scenario.ticTacToeSession ["alice"]) db1 = Some db1.
Proof.
  destruct (joinSession_idempotent "bob" ["alice"; "bob"]) as (Hin & _ & Hdb).
  assert (Hbob : "bob" ∈ ["alice"; "bob"]) by (apply list_elem_of_lookup; exists 1; reflexivity).
  destruct (Hdb (Scenario.ticTacToeSession ["alice"])
                (Scenario.metadata ["alice"; "bob"])
                (Scenario.ticTacToeSession ["alice"; "bob"])
                eq_refl eq_refl) as (Hsame & Htwice & _).
  split; [exact (Hin Hbob)|]. split; [exact (Hsame Hbob)|].
  apply Htwice. discriminate.
Defined.

End RosterClaims.

(** ** Claims about the card's controls and what stands behind them *)
Section CardClaims.
Import Js GameCard.

Lemma render_Some (gd : gmap string GameInfo) (uid : string) (s : Session) (g : GameInfo) :
  gd !! session_type s = Some g →
  render gd uid s
  = Some {| joinOrStartButton :=
              (if isInSession uid s && bool_decide (Z.of_nat (length (users s)) >= minUsers g)%Z
               then StartGame (getGamePath s)
               else JoinButton
                      (isInSession uid s
                       || bool_decide (Z.of_nat (length (users s)) >= maxUsers g)%Z)
                      (if bool_decide (Z.of_nat (length (users s)) >= maxUsers g)%Z
                       then "Game is full" else "Join"));
            deleteDisabled := negb (isGameCreator uid s) |}.
Proof.
  intros Hg. unfold render, shouldShowStartButton, isFull. rewrite Hg. simpl.
  by destruct (isInSession uid s && _).
Qed.

Lemma isInSession_true (uid : string) (s : Session) :
  isInSession uid s = true ↔ uid ∈ users s.
Proof. unfold isInSession. by rewrite bool_decide_eq_true, indexOf_nonneg. Qed.

(** C10. [isInSession] holds exactly when the caller's id occurs in
    [session.users]; [isFull] holds exactly when the roster has at
    least [maxUsers] entries; a join button on the card is disabled
    exactly when one of the two holds; and the card offers an enabled
    join exactly when the caller is not in the roster and the roster
    is shorter than [maxUsers]. *)
Theorem join_control_enabled
    (gd : gmap string GameInfo) (uid : string) (s : Session) (g : GameInfo) :
  gd !! session_type s = Some g →
  (isInSession uid s = true ↔ uid ∈ users s)
  ∧ (isFull gd s = Some true ↔ (Z.of_nat (length (users s)) >= maxUsers g)%Z)
  ∧ ∃ c full,
      render gd uid s = Some c ∧ isFull gd s = Some full
      ∧ (∀ d l, joinOrStartButton c = JoinButton d l → d = (isInSession uid s || full))
      ∧ (joinEnabled c = true
         ↔ (uid ∉ users s) ∧ (Z.of_nat (length (users s)) < maxUsers g)%Z).
Proof.
  intros Hg. split; [apply isInSession_true|]. split.
  - unfold isFull. rewrite Hg. simpl. split.
    + intros [= H]. by apply bool_decide_eq_true in H.
    + intros H. f_equal. by apply bool_decide_eq_true.
  - eexists _, _. split; [by apply render_Some|]. split.
    { unfold isFull. by rewrite Hg. }
    pose proof (isInSession_true uid s) as Hin.
    unfold joinEnabled. simpl.
    destruct (isInSession uid s); simpl.
    + split.
      * intros d l. case_bool_decide; [done|]. by intros [= <- _].
      * split; [by case_bool_decide|].
        intros [Hnot _]. exfalso. apply Hnot. by apply Hin.
    + assert (uid ∉ users s) as Hnot by (intros H; apply Hin in H; done).
      split.
      * by intros d l [= <- _].
      * case_bool_decide; simpl.
        -- split; [done|]. intros [_ ?]. lia.
        -- split; [|done]. intros _. split; [done|lia].
Qed.

Lemma join_control_enabled_witness :
  isFull Scenario.gameData (Scenario.ticTacToeSession ["alice"; "bob"]) = Some true
  ↔ (Z.of_nat (length ["alice"; "bob"]) >= 2)%Z.
Proof.
  exact (proj1 (proj2 (join_control_enabled Scenario.gameData "carol"
                         (Scenario.ticTacToeSession ["alice"; "bob"])
                         {| minUsers := 2; maxUsers := 2 |} eq_refl))).
Defined.

End CardClaims.

(** ** Where the card checks the cap and the creator *)
Section GateClaims.
Import Js GameCard.

(** C2. The claim is what the card is after (the tutorial: "the
    [maxUsers] property caps the number of users that can join"), and
    the code misses it: the cap is compared in [render] against the
    roster the card holds, and the update function of the transaction
    does not compare at all. Here the stored roster of the
    tic-tac-toe session is full (alice and bob, two of two); carol's
    card, rendered from the roster delivered before bob joined, offers
    the join; her [joinSession] commits, and the stored roster has
    three entries. *)
Theorem join_full_session_commits :
  Scenario.metadata ["alice"; "bob"] !! "s1"
  = Some (Scenario.ticTacToeSession ["alice"; "bob"])
  ∧ isFull Scenario.gameData (Scenario.ticTacToeSession ["alice"; "bob"]) = Some true
  ∧ (∃ c, render Scenario.gameData "carol" (Scenario.ticTacToeSession ["alice"]) = Some c
          ∧ joinEnabled c = true)
  ∧ joinSession "carol" (Scenario.ticTacToeSession ["alice"])
                (Scenario.metadata ["alice"; "bob"])
    = Some (Scenario.metadata ["alice"; "bob"; "carol"])
  ∧ Scenario.metadata ["alice"; "bob"; "carol"] ≠ Scenario.metadata ["alice"; "bob"].
Proof.
  split_and!.
  - reflexivity.
  - reflexivity.
  - eexists. split; reflexivity.
  - unfold Scenario.metadata.
    erewrite joinSession_Some; [|apply lookup_singleton_eq|discriminate].
    simpl. by rewrite insert_singleton_eq.
  - intros Heq.
    assert (Scenario.metadata ["alice"; "bob"; "carol"] !! "s1"
            = Scenario.metadata ["alice"; "bob"] !! "s1") as H by (by rewrite Heq).
    unfold Scenario.metadata in H. rewrite !lookup_singleton_eq in H. discriminate H.
Qed.

(** C3, as stated, fails. Bob did not create the session, yet his
    [deleteSession] removes its metadata, roster included. *)
Lemma delete_by_non_creator_removes :
  isGameCreator "bob" (Scenario.ticTacToeSession ["alice"; "bob"]) = false
  ∧ Scenario.metadata ["alice"; "bob"] !! "s1"
    = Some (Scenario.ticTacToeSession ["alice"; "bob"])
  ∧ deleteSession (Scenario.ticTacToeSession ["alice"; "bob"])
                  (Scenario.metadata ["alice"; "bob"]) !! "s1" = None.
Proof.
  split_and!.
  - reflexivity.
  - apply lookup_singleton_eq.
  - apply lookup_delete_eq.
Qed.

(** C3, amended. The creator check stands in [render]: the Delete
    control is disabled exactly for a requester whose id differs from
    [session.creator]. [deleteSession] makes no check of its own:
    whoever calls it, the session's metadata is removed as a whole
    and every other session is left as it was. *)
Theorem delete_gated_in_render
    (gd : gmap string GameInfo) (uid : string) (s : Session) (g : GameInfo) :
  gd !! session_type s = Some g →
  (isGameCreator uid s = true ↔ uid = creator s)
  ∧ (∃ c, render gd uid s = Some c ∧ (deleteDisabled c = true ↔ uid ≠ creator s))
  ∧ (∀ db : gmap string Session,
       deleteSession s db !! session_id s = None
       ∧ ∀ k, k ≠ session_id s → deleteSession s db !! k = db !! k).
Proof.
  intros Hg. split_and!.
  - unfold isGameCreator. apply bool_decide_eq_true.
  - eexists. split; [by apply render_Some|]. simpl.
    unfold isGameCreator. rewrite negb_true_iff. apply bool_decide_eq_false.
  - intros db. unfold deleteSession, Firebase.remove. split.
    + apply lookup_delete_eq.
    + intros k Hk. by apply lookup_delete_ne.
Qed.

Lemma delete_gated_in_render_witness :
  ∃ c, render Scenario.gameData "bob" (Scenario.ticTacToeSession ["alice"; "bob"]) = Some c
       ∧ (deleteDisabled c = true ↔ "bob" ≠ "alice").
Proof.
  exact (proj1 (proj2 (delete_gated_in_render Scenario.gameData "bob"
                         (Scenario.ticTacToeSession ["alice"; "bob"])
                         {| minUsers := 2; maxUsers := 2 |} eq_refl))).
Defined.

End GateClaims.

(** ** The session document under [set] and under the move handler *)
Section DocumentFacts.
Import Js Firebase TicTacToe.

Lemma set_lookup (data stored : gmap string Value) (k : string) :
  Firebase.set data stored !! k
  = match data !! k with
    | Some (VPrim Null) => None
    | o => o
    end.
Proof.
  unfold Firebase.set. rewrite map_lookup_filter.
  destruct (data !! k) as [v|]; simpl; [|done].
  case_guard as Hv; simpl in *.
  - destruct v as [[]|]; done.
  - destruct (decide (v = VPrim Null)) as [->|Hne]; [done|]. by destruct Hv.
Qed.

Lemma move_document_lookup (c : list Prim) (v : Prim) (remote : gmap string Value) (k : string) :
  Firebase.set {[ "cell_state" := VArray c; "current_user" := VPrim v ]} remote !! k
  = if decide (k = "cell_state") then Some (VArray c)
    else if decide (k = "current_user")
         then match v with Null => None | holder => Some (VPrim holder) end
         else None.
Proof.
  rewrite set_lookup.
  destruct (decide (k = "cell_state")) as [->|Hc].
  { by rewrite lookup_insert_eq. }
  rewrite lookup_insert_ne by done.
  destruct (decide (k = "current_user")) as [->|Hu].
  - rewrite lookup_singleton_eq. by destruct v.
  - by rewrite lookup_singleton_ne.
Qed.

Lemma firstOther_Null (me : string) (user_ids : list string) :
  firstOther me user_ids = Null ↔ ∀ u, u ∈ user_ids → u = me.
Proof.
  induction user_ids as [|u rest IH]; simpl.
  - split; [|done]. intros _ u Hu. by apply elem_of_nil in Hu.
  - destruct (decide (u ≠ me)) as [Hne|Heq].
    + split; [done|]. intros H. exfalso. apply Hne, H. by left.
    + apply dec_stable in Heq as ->. rewrite IH. split.
      * intros H u Hu. apply elem_of_cons in Hu as [->|Hu]; [done|by apply H].
      * intros H u Hu. apply H. by right.
Qed.

Lemma firstOther_Str (me : string) (user_ids : list string) (o : string) :
  firstOther me user_ids = Str o →
  o ≠ me ∧ ∃ before after,
    user_ids = before ++ o :: after ∧ ∀ u, u ∈ before → u = me.
Proof.
  induction user_ids as [|u rest IH]; simpl; [done|].
  destruct (decide (u ≠ me)) as [Hne|Heq].
  - intros [= ->]. split; [done|]. exists [], rest. split; [done|].
    intros u Hu. by apply elem_of_nil in Hu.
  - apply dec_stable in Heq as ->. intros H.
    destruct (IH H) as (Hne & before & after & -> & Hb).
    split; [done|]. exists (me :: before), after. split; [done|].
    intros u Hu. apply elem_of_cons in Hu as [->|Hu]; [done|by apply Hb].
Qed.

Lemma firstOther_first (me : string) (before : list string) (o : string) (after : list string) :
  (∀ u, u ∈ before → u = me) → o ≠ me →
  firstOther me (before ++ o :: after) = Str o.
Proof.
  intros Hb Ho. induction before as [|u before IH]; simpl.
  - by rewrite decide_True.
  - rewrite decide_False.
    + apply IH. intros v Hv. apply Hb. by right.
    + intros Hne. apply Hne, Hb. by left.
Qed.

Lemma firstOther_not_Undefined (me : string) (user_ids : list string) :
  firstOther me user_ids ≠ Undefined.
Proof.
  induction user_ids as [|u rest IH]; simpl; [done|]. by destruct (decide (u ≠ me)).
Qed.

Lemma elem_of_list_pair (u a b : string) : u ∈ [a; b] ↔ u = a ∨ u = b.
Proof. by rewrite elem_of_cons, list_elem_of_singleton. Qed.

End DocumentFacts.

(** ** Claims about the tic-tac-toe move *)
Section MoveClaims.
Import Js Firebase TicTacToe.

(** C9. The symbol the move handler puts into the clicked cell
    depends on one thing only: ["X"] when the caller is the session
    creator, ["O"] otherwise. Whatever the cell held, whatever the
    component state and the stored document say about the turn, the
    cell holds that symbol afterwards, in the component's board and
    in the board written to the store. *)
Theorem symbol_by_creator (p : Props) (st : State) (i : nat) (remote : gmap string Value) :
  cellState (handleButtonClick p st i remote).1 !! i
  = Some (Str (if decide (myUserId p = sessionCreatorUserId p) then "X" else "O"))
  ∧ (handleButtonClick p st i remote).2 !! "cell_state"
    = Some (VArray (cellState (handleButtonClick p st i remote).1)).
Proof.
  unfold handleButtonClick. cbn [fst snd cellState]. split.
  - rewrite array_set_lookup. unfold mySymbol. by case_decide.
  - by rewrite move_document_lookup.
Qed.

(** C1, as stated, fails. Alice has moved and it is bob's turn, in
    her component state as in the store. Her handler, called for
    cell 0, tests nothing: the store afterwards holds her second
    mark and differs from what it held. *)
Lemma move_commits_out_of_turn :
  isMyTurn Scenario.aliceProps Scenario.afterCentre = false
  ∧ Scenario.storedBoard !! "current_user" = Some (VPrim (Str "bob"))
  ∧ (handleButtonClick Scenario.aliceProps Scenario.afterCentre 0 Scenario.storedBoard).2
    !! "cell_state"
    = Some (VArray (<[0 := Str "X"]> Scenario.centreMarked))
  ∧ (handleButtonClick Scenario.aliceProps Scenario.afterCentre 0 Scenario.storedBoard).2
    ≠ Scenario.storedBoard.
Proof.
  split_and!.
  - reflexivity.
  - reflexivity.
  - unfold handleButtonClick. cbn [snd]. by rewrite move_document_lookup.
  - intros Heq.
    assert ((handleButtonClick Scenario.aliceProps Scenario.afterCentre 0
               Scenario.storedBoard).2 !! "cell_state"
            = Scenario.storedBoard !! "cell_state") as H by (by rewrite Heq).
    unfold handleButtonClick in H. cbn [snd] in H.
    rewrite move_document_lookup in H. discriminate H.
Qed.

(** C1, amended. A move is this composition: take the board held in
    the component state, overwrite the clicked cell, look up the
    other user, and write both with [set]. The write does not depend
    on what the store holds, and the handler does not test the turn.
    The turn is tested in [render]: the button of a cell is disabled
    exactly when it is not the caller's turn or the cell is not
    ["."]. *)
Theorem move_written_by_set (p : Props) (st : State) (i : nat) (remote : gmap string Value) :
  (∀ remote' : gmap string Value,
     (handleButtonClick p st i remote').2 = (handleButtonClick p st i remote).2)
  ∧ (handleButtonClick p st i remote).2 !! "cell_state"
    = Some (VArray (array_set i (mySymbol p) (cellState st)))
  ∧ (handleButtonClick p st i remote).2 !! "current_user"
    = match getOtherUserId p with
      | Null => None
      | holder => Some (VPrim holder)
      end
  ∧ (∀ (j : nat) (b : Button),
       render p st !! j = Some b →
       cellState st !! j = Some (label b)
       ∧ disabled b = (negb (isMyTurn p st) || bool_decide (label b ≠ Str "."))).
Proof.
  unfold handleButtonClick. cbn [snd]. split_and!.
  - done.
  - by rewrite move_document_lookup.
  - rewrite move_document_lookup. by destruct (getOtherUserId p).
  - intros j b Hb. unfold render in Hb. rewrite list_lookup_fmap in Hb.
    destruct (cellState st !! j) as [c|]; [|done].
    by injection Hb as <-.
Qed.

Lemma move_written_by_set_witness :
  cellState Scenario.afterCentre !! 4 = Some (Str "X")
  ∧ true = (negb (isMyTurn Scenario.aliceProps Scenario.afterCentre)
            || bool_decide (Str "X" ≠ Str ".")).
Proof.
  exact (proj2 (proj2 (proj2
           (move_written_by_set Scenario.aliceProps Scenario.afterCentre 0 ∅)))
           4 {| disabled := true; label := Str "X" |} eq_refl).
Defined.

End MoveClaims.

(** ** Claims about the other-player lookup and about merging *)
Section HolderClaims.
Import Js Firebase TicTacToe.

(** C6, as stated, fails. A roster of one member who is not the
    caller yields that member although it has fewer than two
    entries; and when the lookup finds nobody the handler writes all
    the same: the store then holds the new board and no
    [current_user]. *)
Lemma lookup_and_write_without_other :
  length (sessionUserIds Scenario.aliceOutside) = 1
  ∧ getOtherUserId Scenario.aliceOutside = Str "bob"
  ∧ getOtherUserId Scenario.aliceAlone = Null
  ∧ (handleButtonClick Scenario.aliceAlone (initialState Scenario.aliceAlone) 0 ∅).2
    = {[ "cell_state" := VArray (<[0 := Str "X"]> (replicate 9 (Str "."))) ]}
  ∧ (handleButtonClick Scenario.aliceAlone (initialState Scenario.aliceAlone) 0 ∅).2
    !! "current_user" = None.
Proof.
  split_and!; reflexivity.
Qed.

(** C6, amended. In a roster of two different ids, one of them the
    caller's, [getOtherUserId] returns the other one, the only member
    distinct from the caller. In general it returns the first entry
    that differs from the caller, a string whenever some entry
    differs, and [null] exactly when no entry does, which covers the
    empty roster and the roster holding the caller alone; a roster of
    one member who is not the caller yields that member. It never
    returns [undefined]. *)
Theorem getOtherUserId_other (p : Props) :
  (∀ a b : string,
     sessionUserIds p = [a; b] → a ≠ b → myUserId p = a ∨ myUserId p = b →
     ∃ o, getOtherUserId p = Str o
          ∧ o ∈ sessionUserIds p ∧ o ≠ myUserId p
          ∧ ∀ u, u ∈ sessionUserIds p → u ≠ myUserId p → u = o)
  ∧ (getOtherUserId p = Null ↔ ∀ u, u ∈ sessionUserIds p → u = myUserId p)
  ∧ (sessionUserIds p = [] ∨ sessionUserIds p = [myUserId p] → getOtherUserId p = Null)
  ∧ (∀ o, getOtherUserId p = Str o
          ↔ o ≠ myUserId p
            ∧ ∃ before after,
                sessionUserIds p = before ++ o :: after
                ∧ ∀ u, u ∈ before → u = myUserId p)
  ∧ (∀ u, u ∈ sessionUserIds p → u ≠ myUserId p → ∃ o, getOtherUserId p = Str o)
  ∧ (∀ u, sessionUserIds p = [u] → u ≠ myUserId p → getOtherUserId p = Str u)
  ∧ getOtherUserId p ≠ Undefined.
Proof.
  unfold getOtherUserId. split_and!.
  - destruct p as [me cr us]. simpl. intros a b -> Hab [-> | ->]; simpl.
    + rewrite decide_False by (intros H; by apply H).
      rewrite decide_True by done.
      exists b. split_and!; [done|by apply elem_of_list_pair; right|done|].
      intros u Hu Hne. by apply elem_of_list_pair in Hu as [->| ->].
    + rewrite decide_True by done.
      exists a. split_and!; [done|by apply elem_of_list_pair; left|done|].
      intros u Hu Hne. by apply elem_of_list_pair in Hu as [->| ->].
  - apply firstOther_Null.
  - intros Hus. apply firstOther_Null. intros u Hu.
    destruct Hus as [Hus|Hus]; rewrite Hus in Hu.
    + by apply elem_of_nil in Hu.
    + by apply list_elem_of_singleton in Hu.
  - intros o. split; [apply firstOther_Str|].
    intros (Ho & before & after & -> & Hb). by apply firstOther_first.
  - intros u Hu Hne.
    destruct (firstOther (myUserId p) (sessionUserIds p)) as [| |o] eqn:Hres.
    + by apply firstOther_not_Undefined in Hres.
    + exfalso. apply Hne. by apply (proj1 (firstOther_Null _ _) Hres).
    + by exists o.
  - intros u -> Hne. simpl. by rewrite decide_True.
  - apply firstOther_not_Undefined.
Qed.

Lemma getOtherUserId_other_witness :
  ∃ o, getOtherUserId Scenario.bobProps = Str o
       ∧ o ∈ sessionUserIds Scenario.bobProps ∧ o ≠ "bob"
       ∧ ∀ u, u ∈ sessionUserIds Scenario.bobProps → u ≠ "bob" → u = o.
Proof.
  refine (proj1 (getOtherUserId_other Scenario.bobProps) "alice" "bob" eq_refl _ _).
  - discriminate.
  - right. reflexivity.
Defined.

(** C7, as stated, fails. Bob's move, made on his turn, goes through
    [set]: the key [text] another writer had stored is gone
    afterwards. *)
Lemma move_drops_other_keys :
  isMyTurn Scenario.bobProps Scenario.afterCentre = true
  ∧ Scenario.storedBoard !! "text" = Some (VPrim (Str "Hello, World!"))
  ∧ (handleButtonClick Scenario.bobProps Scenario.afterCentre 0 Scenario.storedBoard).2
    !! "text" = None.
Proof.
  split_and!; reflexivity.
Qed.

(** C7, amended. [setGameData] merges: a key the update does not
    mention keeps its value and a key it mentions takes the new one.
    The tic-tac-toe move handler replaces instead: after it the
    document holds [cell_state], [current_user] when there is another
    user, and no other key. *)
Theorem setGameData_merges_move_replaces
    (data stored : gmap string Value) (k : string) :
  (data !! k = None → setGameData data stored !! k = stored !! k)
  ∧ (∀ v, data !! k = Some v → setGameData data stored !! k = Some v)
  ∧ (∀ (p : Props) (st : State) (i : nat),
       k ≠ "cell_state" → k ≠ "current_user" →
       (handleButtonClick p st i stored).2 !! k = None).
Proof.
  unfold setGameData. split_and!.
  - intros Hk. by apply lookup_union_r.
  - intros v Hk. by apply lookup_union_Some_l.
  - intros p st i Hc Hu. unfold handleButtonClick. cbn [snd].
    rewrite move_document_lookup. by rewrite !decide_False.
Qed.

Lemma setGameData_merges_move_replaces_witness :
  setGameData {[ "last_user_id" := VPrim (Str "bob") ]} Scenario.storedBoard !! "text"
  = Scenario.storedBoard !! "text".
Proof.
  exact (proj1 (setGameData_merges_move_replaces
                  {[ "last_user_id" := VPrim (Str "bob") ]} Scenario.storedBoard "text")
               eq_refl).
Defined.

End HolderClaims.


(** * Further properties of the session card *)
Section CardBehaviour.
Import Js GameCard.

(** X2. What the action row shows, case by case: the start link, with the
    path [/<type>/<id>], to a member once the roster has [minUsers]
    entries; otherwise a join button that reads "Game is full" and is
    disabled when the roster has [maxUsers] entries, reads "Join" and
    is disabled for a member, and reads "Join" and can be pressed for
    anybody else. *)
Theorem card_action_row
    (gd : gmap string GameInfo) (uid : string) (s : Session) (g : GameInfo) :
  gd !! session_type s = Some g →
  ∃ c, render gd uid s = Some c
       ∧ joinOrStartButton c
         = if decide (uid ∈ users s ∧ (Z.of_nat (length (users s)) >= minUsers g)%Z)
           then StartGame ("/" +:+ session_type s +:+ "/" +:+ session_id s)
           else if decide (Z.of_nat (length (users s)) >= maxUsers g)%Z
                then JoinButton true "Game is full"
                else if decide (uid ∈ users s)
                     then JoinButton true "Join"
                     else JoinButton false "Join".
Proof.
  intros Hg. eexists. split; [by apply render_Some|]. simpl.
  pose proof (isInSession_true uid s) as Hin.
  destruct (isInSession uid s) eqn:Hmem; simpl.
  - assert (uid ∈ users s) as Hu by (by apply Hin).
    case_bool_decide as Hmin.
    + by rewrite decide_True.
    + rewrite decide_False by tauto.
      case_bool_decide; [by rewrite decide_True|].
      rewrite decide_False by done. by rewrite decide_True.
  - assert (uid ∉ users s) as Hu by (intros H; apply Hin in H; done).
    rewrite decide_False by tauto.
    case_bool_decide; [by rewrite decide_True|].
    rewrite decide_False by done. by rewrite decide_False.
Qed.

Lemma card_action_row_witness :
  ∃ c, render Scenario.gameData "bob" (Scenario.ticTacToeSession ["alice"; "bob"]) = Some c
       ∧ joinOrStartButton c = StartGame "/tictactoe/s1".
Proof.
  exact (card_action_row Scenario.gameData "bob"
           (Scenario.ticTacToeSession ["alice"; "bob"])
           {| minUsers := 2; maxUsers := 2 |} eq_refl).
Defined.

(** X3. A full session lets its members start, provided the registry
    entry has [minUsers] no larger than [maxUsers]. *)
Theorem full_roster_member_can_start
    (gd : gmap string GameInfo) (uid : string) (s : Session) (g : GameInfo) :
  gd !! session_type s = Some g →
  (minUsers g ≤ maxUsers g)%Z →
  isFull gd s = Some true →
  uid ∈ users s →
  ∃ c, render gd uid s = Some c ∧ joinOrStartButton c = StartGame (getGamePath s).
Proof.
  intros Hg Hle Hfull Hu. eexists. split; [by apply render_Some|]. simpl.
  unfold isFull in Hfull. rewrite Hg in Hfull. simpl in Hfull.
  injection Hfull as Hfull. apply bool_decide_eq_true in Hfull.
  rewrite (proj2 (isInSession_true uid s) Hu). simpl.
  rewrite bool_decide_eq_true_2 by lia. done.
Qed.

Lemma full_roster_member_can_start_witness :
  ∃ c, render Scenario.gameData "alice" (Scenario.ticTacToeSession ["alice"; "bob"]) = Some c
       ∧ joinOrStartButton c = StartGame "/tictactoe/s1".
Proof.
  refine (full_roster_member_can_start Scenario.gameData "alice"
            (Scenario.ticTacToeSession ["alice"; "bob"])
            {| minUsers := 2; maxUsers := 2 |} eq_refl _ eq_refl _).
  - simpl. lia.
  - apply list_elem_of_lookup. exists 0. reflexivity.
Defined.

(** X4. Once a user's join is committed and the new metadata is what the
    card is rendered from, the user is in the roster, the card offers
    that user no join that can be pressed, and it shows the start link
    exactly when the roster has reached [minUsers]. *)
Theorem joined_user_is_not_offered_join
    (gd : gmap string GameInfo) (uid : string) (s m : Session)
    (db db' : gmap string Session) (g : GameInfo) :
  db !! session_id s = Some m →
  gd !! session_type m = Some g →
  joinSession uid s db = Some db' →
  ∃ s' c,
    db' !! session_id s = Some s'
    ∧ uid ∈ users s'
    ∧ render gd uid s' = Some c
    ∧ joinEnabled c = false
    ∧ (joinOrStartButton c = StartGame (getGamePath m)
       ↔ (Z.of_nat (length (users s')) >= minUsers g)%Z).
Proof.
  intros Hm Hg Hjoin.
  assert (users m ≠ []) as Hne.
  { intros Hnil. by rewrite (joinSession_no_roster uid s db m Hm Hnil) in Hjoin. }
  rewrite (joinSession_Some uid s db m Hm Hne) in Hjoin.
  injection Hjoin as <-.
  set (s' := with_users (joinSession_update uid (users m)) m).
  assert (uid ∈ users s') as Hu by apply joinSession_update_elem.
  exists s'. eexists. split; [apply lookup_insert_eq|]. split; [done|].
  split; [by apply render_Some|].
  unfold joinEnabled. simpl.
  rewrite (proj2 (isInSession_true uid s') Hu). simpl.
  case_bool_decide as Hmin; simpl.
  - split; [done|]. by split.
  - split; [done|]. split; [done|]. intros H. by destruct Hmin.
Qed.

Lemma joined_user_is_not_offered_join_witness :
  ∃ s' c,
    Scenario.metadata ["alice"; "bob"] !! "s1" = Some s'
    ∧ "bob" ∈ users s'
    ∧ render Scenario.gameData "bob" s' = Some c
    ∧ joinEnabled c = false
    ∧ (joinOrStartButton c = StartGame "/tictactoe/s1"
       ↔ (Z.of_nat (length (users s')) >= 2)%Z).
Proof.
  exact (joined_user_is_not_offered_join Scenario.gameData "bob"
           (Scenario.ticTacToeSession ["alice"]) (Scenario.ticTacToeSession ["alice"])
           (Scenario.metadata ["alice"])
           (Scenario.metadata ["alice"; "bob"])
           {| minUsers := 2; maxUsers := 2 |} eq_refl eq_refl eq_refl).
Defined.

End CardBehaviour.

(** * Further properties of joining and deleting *)
Section JoinBehaviour.
Import Js GameCard Roster.

(** X5. [joinSession] throws exactly when the location of the roster
    holds nothing: the session has no metadata in the store, or its
    metadata has no roster. The first is the case right after
    [deleteSession]: a join that loses the race against the deletion
    does not bring the session back. A join that commits leaves a
    roster, so a later join on that session does not throw. *)
Theorem joinSession_throws_iff_no_roster
    (uid : string) (s : Session) (db : gmap string Session) :
  (joinSession uid s db = None
   ↔ db !! session_id s = None ∨ ∃ m, db !! session_id s = Some m ∧ users m = [])
  ∧ joinSession uid s (deleteSession s db) = None
  ∧ (∀ db' uid', joinSession uid s db = Some db' → joinSession uid' s db' ≠ None).
Proof.
  split_and!.
  - unfold joinSession. destruct (db !! session_id s) as [m|] eqn:Hm.
    + destruct (users m) as [|u us] eqn:Hus.
      * split; [|done]. intros _. right. by exists m.
      * split; [done|]. intros [?|(m' & [= <-] & Hnil)]; [done|]. by rewrite Hus in Hnil.
    + split; [|done]. intros _. by left.
  - unfold joinSession, deleteSession, Firebase.remove. by rewrite lookup_delete_eq.
  - intros db' uid' Hjoin.
    destruct (db !! session_id s) as [m|] eqn:Hm;
      [|by unfold joinSession in Hjoin; rewrite Hm in Hjoin].
    assert (users m ≠ []) as Hne.
    { intros Hnil. by rewrite (joinSession_no_roster uid s db m Hm Hnil) in Hjoin. }
    rewrite (joinSession_Some uid s db m Hm Hne) in Hjoin. injection Hjoin as <-.
    erewrite joinSession_Some;
      [done|apply lookup_insert_eq|rewrite users_with_users; apply joinSession_update_nonempty].
Qed.

Lemma joinSession_throws_iff_no_roster_witness :
  joinSession "carol" (Scenario.ticTacToeSession ["alice"])
              (Scenario.metadata ["alice"; "bob"]) ≠ None.
Proof.
  exact (proj2 (proj2 (joinSession_throws_iff_no_roster "bob"
                         (Scenario.ticTacToeSession ["alice"]) (Scenario.metadata ["alice"])))
           (Scenario.metadata ["alice"; "bob"]) "carol" eq_refl).
Defined.

(** X6. A committed join touches the roster of its own session and
    nothing else: every other session is as before, no session appears
    or disappears, and the session keeps its id, type, creator and
    creation time. The roster it leaves is the stored one, not the one
    the card was rendered from, with the caller's id in it. *)
Theorem joinSession_frame
    (uid : string) (s : Session) (db db' : gmap string Session) :
  joinSession uid s db = Some db' →
  (∀ k, k ≠ session_id s → db' !! k = db !! k)
  ∧ dom db' = dom db
  ∧ ∃ m m', db !! session_id s = Some m ∧ db' !! session_id s = Some m'
            ∧ session_id m' = session_id m ∧ session_type m' = session_type m
            ∧ creator m' = creator m ∧ timestamp m' = timestamp m
            ∧ users m' = joinSession_update uid (users m).
Proof.
  unfold joinSession. destruct (db !! session_id s) as [m|] eqn:Hm; [|done].
  destruct (users m) as [|u0 us] eqn:Hus; [done|].
  intros [= <-]. rewrite <- Hus. split_and!.
  - intros k Hk. by rewrite lookup_insert_ne.
  - apply set_eq. intros k. rewrite !elem_of_dom.
    destruct (decide (k = session_id s)) as [->|Hk].
    + rewrite lookup_insert_eq, Hm. split; eauto.
    + by rewrite lookup_insert_ne.
  - exists m. eexists. split; [done|]. split; [apply lookup_insert_eq|]. done.
Qed.

Lemma joinSession_frame_witness :
  dom (Scenario.metadata ["alice"; "bob"]) = dom (Scenario.metadata ["alice"]).
Proof.
  exact (proj1 (proj2 (joinSession_frame "bob" (Scenario.ticTacToeSession ["alice"])
                         (Scenario.metadata ["alice"]) (Scenario.metadata ["alice"; "bob"])
                         eq_refl))).
Defined.

Lemma joinSession_update_elem_iff (uid u : string) (users : list string) :
  u ∈ joinSession_update uid users ↔ u ∈ users ∨ u = uid.
Proof.
  destruct (decide (uid ∈ users)) as [Hin|Hnin].
  - rewrite joinSession_update_in by done. split; [by left|].
    intros [H| ->]; done.
  - rewrite joinSession_update_notin by done.
    by rewrite elem_of_app, list_elem_of_singleton.
Qed.

Lemma joinAll_cons (users : list string) (uid : string) (uids : list string) :
  joinAll users (uid :: uids) = joinAll (joinSession_update uid users) uids.
Proof. done. Qed.

(** X7. No join is lost and nobody is dropped: after any sequence of
    committed joins the roster holds exactly the ids it held before
    and the ids that joined. *)
Theorem joins_lose_nobody (users uids : list string) (u : string) :
  u ∈ joinAll users uids ↔ u ∈ users ∨ u ∈ uids.
Proof.
  revert users. induction uids as [|uid uids IH]; intros users.
  - simpl. split; [by left|]. intros [H|H]; [done|]. by apply elem_of_nil in H.
  - rewrite joinAll_cons, IH, joinSession_update_elem_iff, elem_of_cons. tauto.
Qed.

(** X8. One join makes the roster longer by one when the id is new and
    leaves its length alone otherwise; a sequence of joins never
    shortens the roster and adds at most one entry per join. *)
Theorem join_roster_length (users uids : list string) (uid : string) :
  length (joinSession_update uid users)
  = length users + (if decide (uid ∈ users) then 0 else 1)
  ∧ length users ≤ length (joinAll users uids) ≤ length users + length uids.
Proof.
  assert (∀ us id, length (joinSession_update id us)
                   = length us + (if decide (id ∈ us) then 0 else 1)) as Hone.
  { intros us id. destruct (decide (id ∈ us)) as [Hin|Hnin].
    - rewrite joinSession_update_in by done. lia.
    - rewrite joinSession_update_notin by done. rewrite length_app. simpl. lia. }
  split; [apply Hone|].
  revert users. induction uids as [|id uids IH]; intros users.
  - simpl. lia.
  - rewrite joinAll_cons. specialize (IH (joinSession_update id users)).
    rewrite Hone in IH. simpl length. destruct (decide (id ∈ users)); lia.
Qed.

(** X9. Users whose ids are new and pairwise different end up in the
    roster behind the earlier members, once each, in the order in
    which their joins were committed. *)
Theorem joins_of_new_users_append (users uids : list string) :
  NoDup uids → (∀ u, u ∈ uids → u ∉ users) →
  joinAll users uids = users ++ uids.
Proof.
  revert users. induction uids as [|uid uids IH]; intros users Hnd Hnew.
  - simpl. by rewrite app_nil_r.
  - apply NoDup_cons in Hnd as [Hhead Hnd].
    rewrite joinAll_cons, joinSession_update_notin by (apply Hnew; by left).
    rewrite IH; [by rewrite <- app_assoc|done|].
    intros u Hu Hin. apply elem_of_app in Hin as [Hin|Hin].
    + apply (Hnew u); [by right|done].
    + apply list_elem_of_singleton in Hin as ->. done.
Qed.

Lemma joins_of_new_users_append_witness :
  joinAll ["alice"] ["bob"; "carol"] = ["alice"; "bob"; "carol"].
Proof.
  apply (joins_of_new_users_append ["alice"] ["bob"; "carol"]).
  - apply (bool_decide_unpack _). vm_compute. exact I.
  - intros u Hu Hin. apply list_elem_of_singleton in Hin as ->.
    apply elem_of_list_pair in Hu as [Hu|Hu]; discriminate Hu.
Defined.

(** X10. The order in which two joins are committed decides the order of
    the entries and nothing else: either order gives the same
    members, each as often. *)
Theorem joins_commute_up_to_order (a b : string) (users : list string) :
  joinSession_update a (joinSession_update b users)
  ≡ₚ joinSession_update b (joinSession_update a users).
Proof.
  destruct (decide (a = b)) as [->|Hab]; [done|].
  destruct (decide (a ∈ users)) as [Ha|Ha], (decide (b ∈ users)) as [Hb|Hb].
  - by rewrite (joinSession_update_in b users Hb), (joinSession_update_in a users Ha),
      (joinSession_update_in b users Hb).
  - rewrite (joinSession_update_in a users) by done.
    rewrite (joinSession_update_in a); [done|].
    apply joinSession_update_elem_iff. by left.
  - rewrite (joinSession_update_in b users) by done.
    rewrite (joinSession_update_in b); [done|].
    apply joinSession_update_elem_iff. by left.
  - rewrite (joinSession_update_notin b users), (joinSession_update_notin a users) by done.
    rewrite !joinSession_update_notin.
    + rewrite <- !app_assoc. apply Permutation_app_head. simpl. apply perm_swap.
    + rewrite elem_of_app, list_elem_of_singleton. intros [?|?]; done.
    + rewrite elem_of_app, list_elem_of_singleton. intros [?|?]; done.
Qed.

End JoinBehaviour.

(** * The route of a session *)
Section GamePath.
Import GameCard.

Lemma slash_separated_inj (t1 t2 i1 i2 : string) :
  "/"%char ∉ String.list_ascii_of_string t1 →
  "/"%char ∉ String.list_ascii_of_string t2 →
  t1 +:+ String "/"%char i1 = t2 +:+ String "/"%char i2 →
  t1 = t2 ∧ i1 = i2.
Proof.
  revert t2. induction t1 as [|c1 t1 IH]; intros [|c2 t2] H1 H2 Heq; cbn in *.
  - by injection Heq as ->.
  - injection Heq as <- _. exfalso. apply H2. by left.
  - injection Heq as -> _. exfalso. apply H1. by left.
  - injection Heq as -> Heq.
    apply not_elem_of_cons in H1 as [_ H1]. apply not_elem_of_cons in H2 as [_ H2].
    destruct (IH t2 H1 H2 Heq) as [-> ->]. done.
Qed.

(** X11. Two sessions whose game types contain no slash have the same
    route only if they have the same type and the same id. *)
Theorem getGamePath_injective (s1 s2 : Session) :
  "/"%char ∉ String.list_ascii_of_string (session_type s1) →
  "/"%char ∉ String.list_ascii_of_string (session_type s2) →
  getGamePath s1 = getGamePath s2 →
  session_type s1 = session_type s2 ∧ session_id s1 = session_id s2.
Proof.
  intros H1 H2 Heq. unfold getGamePath in Heq. cbn in Heq.
  injection Heq as Heq. by apply slash_separated_inj.
Qed.

Lemma getGamePath_injective_witness :
  session_type (Scenario.ticTacToeSession ["alice"])
  = session_type (Scenario.ticTacToeSession ["alice"; "bob"])
  ∧ session_id (Scenario.ticTacToeSession ["alice"])
    = session_id (Scenario.ticTacToeSession ["alice"; "bob"]).
Proof.
  apply (getGamePath_injective (Scenario.ticTacToeSession ["alice"])
           (Scenario.ticTacToeSession ["alice"; "bob"])).
  - apply (bool_decide_unpack _). vm_compute. exact I.
  - apply (bool_decide_unpack _). vm_compute. exact I.
  - reflexivity.
Defined.

End GamePath.

(** * Further properties of the tic-tac-toe component *)
Section BoardBehaviour.
Import Js Firebase TicTacToe TicTacToeData.

Lemma mySymbol_mark (p : Props) : mySymbol p ∈ [Str "."; Str "X"; Str "O"].
Proof.
  unfold mySymbol. case_decide.
  - apply list_elem_of_lookup. by exists 1.
  - apply list_elem_of_lookup. by exists 2.
Qed.

Lemma handleButtonClick_board (p : Props) (st : State) (i : nat) (remote : gmap string Value) :
  i < length (cellState st) →
  cellState (handleButtonClick p st i remote).1 = <[i := mySymbol p]> (cellState st).
Proof. intros Hi. unfold handleButtonClick, array_set. cbn. by rewrite decide_True. Qed.

(** X12. The component starts with an empty board of nine cells and the
    turn with the session creator: the creator sees nine buttons that
    can be pressed, everybody else nine disabled ones. *)
Theorem initial_turn_is_creators (p : Props) :
  validBoard (cellState (initialState p))
  ∧ (isMyTurn p (initialState p) = true ↔ myUserId p = sessionCreatorUserId p)
  ∧ render p (initialState p)
    = replicate 9 {| disabled := negb (bool_decide (myUserId p = sessionCreatorUserId p));
                     label := Str "." |}.
Proof.
  split_and!.
  - split; [done|]. simpl. repeat constructor.
  - unfold isMyTurn. simpl. rewrite bool_decide_eq_true. split; [by intros [= ->]|by intros ->].
  - unfold render, isMyTurn. simpl.
    destruct (decide (myUserId p = sessionCreatorUserId p)) as [Heq|Hne].
    + rewrite !bool_decide_eq_true_2; [done|done|by rewrite Heq].
    + rewrite !bool_decide_eq_false_2; [done|done|by intros [= ?]].
Qed.

(** X13. The data model is kept by a move on one of the nine cells: the
    board stays a nine element array of [X], [O] and [.], in the
    component and in the document written to the store. *)
Theorem move_keeps_board_valid
    (p : Props) (st : State) (i : nat) (remote : gmap string Value) :
  validBoard (cellState st) → i < 9 →
  validBoard (cellState (handleButtonClick p st i remote).1)
  ∧ ∃ board, (handleButtonClick p st i remote).2 !! "cell_state" = Some (VArray board)
             ∧ validBoard board.
Proof.
  intros [Hlen Hcells] Hi.
  assert (validBoard (cellState (handleButtonClick p st i remote).1)) as Hvalid.
  { rewrite handleButtonClick_board by lia. split.
    - by rewrite length_insert.
    - apply Forall_insert; [done|apply mySymbol_mark]. }
  split; [done|]. eexists. split; [|exact Hvalid].
  unfold handleButtonClick. cbn [fst snd cellState]. by rewrite move_document_lookup.
Qed.

Lemma move_keeps_board_valid_witness :
  validBoard (cellState (handleButtonClick Scenario.bobProps Scenario.afterCentre 0 ∅).1).
Proof.
  refine (proj1 (move_keeps_board_valid Scenario.bobProps Scenario.afterCentre 0 ∅ _ _)).
  - apply (bool_decide_unpack _). vm_compute. exact I.
  - lia.
Defined.

(** X14. A move on a cell of the board changes that cell and no other, in
    the component's own board at once; the board keeps its length and
    the component's idea of whose turn it is stays as it was until the
    store delivers the new document. *)
Theorem move_changes_one_cell
    (p : Props) (st : State) (i : nat) (remote : gmap string Value) :
  i < length (cellState st) →
  length (cellState (handleButtonClick p st i remote).1) = length (cellState st)
  ∧ (∀ j, j ≠ i →
       cellState (handleButtonClick p st i remote).1 !! j = cellState st !! j)
  ∧ currentUser (handleButtonClick p st i remote).1 = currentUser st.
Proof.
  intros Hi. rewrite handleButtonClick_board by done. split_and!.
  - apply length_insert.
  - intros j Hj. by apply list_lookup_insert_ne.
  - done.
Qed.

Lemma move_changes_one_cell_witness :
  cellState (handleButtonClick Scenario.bobProps Scenario.afterCentre 0 ∅).1 !! 4
  = Some (Str "X").
Proof.
  refine (proj1 (proj2 (move_changes_one_cell Scenario.bobProps Scenario.afterCentre 0 ∅ _))
            4 _).
  - simpl. lia.
  - lia.
Defined.

(** X15. The handler does not check its index. Called for a position at
    or past the end of the board it makes the board longer: the
    earlier cells stay, the position holds the caller's symbol and the
    positions skipped read as [undefined]. *)
Theorem move_past_the_end_grows_board
    (p : Props) (st : State) (i : nat) (remote : gmap string Value) :
  length (cellState st) ≤ i →
  length (cellState (handleButtonClick p st i remote).1) = S i
  ∧ take (length (cellState st)) (cellState (handleButtonClick p st i remote).1)
    = cellState st
  ∧ (∀ j, length (cellState st) ≤ j < i →
       cellState (handleButtonClick p st i remote).1 !! j = Some Undefined).
Proof.
  intros Hi. unfold handleButtonClick, array_set. cbn [fst cellState].
  rewrite decide_False by lia. split_and!.
  - rewrite !length_app, length_replicate. simpl. lia.
  - by rewrite take_app_length.
  - intros j Hj. rewrite lookup_app_r by lia. rewrite lookup_app_l.
    + apply lookup_replicate_2. lia.
    + rewrite length_replicate. lia.
Qed.

Lemma move_past_the_end_grows_board_witness :
  length (cellState (handleButtonClick Scenario.bobProps Scenario.afterCentre 11 ∅).1) = 12.
Proof.
  refine (proj1 (move_past_the_end_grows_board Scenario.bobProps Scenario.afterCentre 11 ∅ _)).
  simpl. lia.
Defined.

(** X16. A button that can be pressed stands for an empty cell and is
    shown on the caller's turn only; pressing it fills that cell with
    the caller's symbol and leaves every mark on the board in place.
    Through the rendered buttons no mark is overwritten. *)
Theorem enabled_button_marks_free_cell
    (p : Props) (st : State) (j : nat) (b : Button) (remote : gmap string Value) :
  render p st !! j = Some b → disabled b = false →
  isMyTurn p st = true
  ∧ cellState st !! j = Some (Str ".")
  ∧ cellState (handleButtonClick p st j remote).1 = <[j := mySymbol p]> (cellState st)
  ∧ (∀ k c, cellState st !! k = Some c → c ≠ Str "." →
       cellState (handleButtonClick p st j remote).1 !! k = Some c).
Proof.
  intros Hb Hen. unfold render in Hb. rewrite list_lookup_fmap in Hb.
  destruct (cellState st !! j) as [c|] eqn:Hc; [|done].
  injection Hb as <-. simpl in Hen.
  apply orb_false_iff in Hen as [Hturn Hfree].
  apply negb_false_iff in Hturn. apply bool_decide_eq_false in Hfree.
  apply dec_stable in Hfree as ->.
  assert (j < length (cellState st)) as Hj by (by apply lookup_lt_Some in Hc).
  split_and!; [done|done|by apply handleButtonClick_board|].
  intros k c Hk Hmark. rewrite handleButtonClick_board by done.
  rewrite list_lookup_insert_ne; [done|]. intros ->. rewrite Hc in Hk. by injection Hk as <-.
Qed.

Lemma enabled_button_marks_free_cell_witness :
  isMyTurn Scenario.bobProps Scenario.afterCentre = true
  ∧ cellState Scenario.afterCentre !! 0 = Some (Str ".")
  ∧ cellState (handleButtonClick Scenario.bobProps Scenario.afterCentre 0 ∅).1
    = <[0 := mySymbol Scenario.bobProps]> (cellState Scenario.afterCentre)
  ∧ (∀ k c, cellState Scenario.afterCentre !! k = Some c → c ≠ Str "." →
       cellState (handleButtonClick Scenario.bobProps Scenario.afterCentre 0 ∅).1 !! k
       = Some c).
Proof.
  exact (enabled_button_marks_free_cell Scenario.bobProps Scenario.afterCentre 0
           {| disabled := false; label := Str "." |} ∅ eq_refl eq_refl).
Defined.

End BoardBehaviour.

(** * A move and its delivery *)
Section TurnBehaviour.
Import Js Firebase TicTacToe TicTacToeData.

Lemma move_document_nonempty (p : Props) (st : State) (i : nat) (remote : gmap string Value) :
  (handleButtonClick p st i remote).2 ≠ ∅.
Proof.
  intros Heq.
  assert ((handleButtonClick p st i remote).2 !! "cell_state" = None) as H
    by (by rewrite Heq, lookup_empty).
  unfold handleButtonClick in H. cbn [snd] in H. by rewrite move_document_lookup in H.
Qed.

Lemma delivered_move (p : Props) (st : State) (i : nat) (remote : gmap string Value) :
  validBoard (cellState st) → i < 9 →
  onSessionDataChanged (handleButtonClick p st i remote).2 ≫= toState
  = Some {| cellState := <[i := mySymbol p]> (cellState st);
            currentUser := match getOtherUserId p with
                           | Null => Undefined
                           | holder => holder
                           end |}.
Proof.
  intros [Hlen _] Hi. unfold onSessionDataChanged.
  rewrite decide_False by apply move_document_nonempty.
  unfold handleButtonClick, Snapshot.prop, toState. cbn [snd mbind option_bind].
  cbn [rawCellState rawCurrentUser].
  rewrite !move_document_lookup. simpl.
  unfold array_set. rewrite decide_True by lia. by destruct (getOtherUserId p).
Qed.

Lemma firstOther_two (me a b : string) :
  a ≠ b → me = a ∨ me = b →
  firstOther me [a; b] = Str (if decide (me = a) then b else a).
Proof.
  intros Hab [-> | ->]; simpl.
  - rewrite decide_False by (intros H; by apply H).
    rewrite decide_True by done. by rewrite decide_True.
  - rewrite decide_True by done. by rewrite decide_False.
Qed.

(** X17. What a move writes is what the listener of every player takes
    over once the store delivers it: the board with the new mark, and
    as turn holder the user [getOtherUserId] returned, [undefined]
    when it returned [null]. *)
Theorem move_round_trip
    (p : Props) (st : State) (i : nat) (remote : gmap string Value) :
  validBoard (cellState st) → i < 9 →
  ∃ st', onSessionDataChanged (handleButtonClick p st i remote).2 ≫= toState = Some st'
         ∧ cellState st' = <[i := mySymbol p]> (cellState st)
         ∧ cellState st' = cellState (handleButtonClick p st i remote).1
         ∧ validBoard (cellState st')
         ∧ currentUser st' = match getOtherUserId p with
                             | Null => Undefined
                             | holder => holder
                             end.
Proof.
  intros Hvalid Hi. eexists. split; [by apply delivered_move|].
  destruct Hvalid as [Hlen Hcells]. cbn [cellState currentUser].
  split_and!; [done| |split|done].
  - symmetry. apply handleButtonClick_board. lia.
  - by rewrite length_insert.
  - apply Forall_insert; [done|apply mySymbol_mark].
Qed.

Lemma move_round_trip_witness :
  ∃ st', onSessionDataChanged
           (handleButtonClick Scenario.bobProps Scenario.afterCentre 0 Scenario.storedBoard).2
         ≫= toState = Some st'
         ∧ cellState st' = <[0 := Str "O"]> Scenario.centreMarked
         ∧ cellState st'
           = cellState (handleButtonClick Scenario.bobProps Scenario.afterCentre 0
                          Scenario.storedBoard).1
         ∧ validBoard (cellState st')
         ∧ currentUser st' = Str "alice".
Proof.
  refine (move_round_trip Scenario.bobProps Scenario.afterCentre 0 Scenario.storedBoard _ _).
  - apply (bool_decide_unpack _). vm_compute. exact I.
  - lia.
Defined.

(** X18. In a session of two the turn alternates: after a move of one
    member on one of the nine cells of a valid board is delivered, it
    is not that member's turn any more and it is the other member's
    turn. *)
Theorem two_party_turn_alternates
    (p : Props) (a b : string) (st : State) (i : nat) (remote : gmap string Value) :
  validBoard (cellState st) → i < 9 →
  sessionUserIds p = [a; b] → a ≠ b → myUserId p = a ∨ myUserId p = b →
  ∃ st', onSessionDataChanged (handleButtonClick p st i remote).2 ≫= toState = Some st'
         ∧ isMyTurn p st' = false
         ∧ ∀ q : Props,
             myUserId q = a ∨ myUserId q = b → myUserId q ≠ myUserId p →
             isMyTurn q st' = true.
Proof.
  intros Hvalid Hi Hus Hab Hme. eexists. split; [by apply delivered_move|].
  unfold isMyTurn, getOtherUserId. cbn [currentUser].
  rewrite Hus, (firstOther_two _ a b Hab Hme). split.
  - apply bool_decide_eq_false. intros [= Heq]. case_decide; destruct Hme; congruence.
  - intros q Hq Hne. apply bool_decide_eq_true. f_equal.
    case_decide; destruct Hme, Hq; congruence.
Qed.

Lemma two_party_turn_alternates_witness :
  ∃ st', onSessionDataChanged
           (handleButtonClick Scenario.aliceProps (initialState Scenario.aliceProps) 4 ∅).2
         ≫= toState = Some st'
         ∧ isMyTurn Scenario.aliceProps st' = false
         ∧ ∀ q : Props,
             myUserId q = "alice" ∨ myUserId q = "bob" → myUserId q ≠ "alice" →
             isMyTurn q st' = true.
Proof.
  refine (two_party_turn_alternates Scenario.aliceProps "alice" "bob"
            (initialState Scenario.aliceProps) 4 ∅ _ _ eq_refl _ _).
  - apply (bool_decide_unpack _). vm_compute. exact I.
  - lia.
  - discriminate.
  - left. reflexivity.
Defined.

(** X19. When the roster holds nobody but the caller, a move on one
    of the nine cells of a valid board leaves the session without a
    turn holder: once it is delivered it is nobody's turn, and every
    button of every player's board is disabled. *)
Theorem move_without_other_blocks_everyone
    (p : Props) (st : State) (i : nat) (remote : gmap string Value) :
  validBoard (cellState st) → i < 9 →
  (∀ u, u ∈ sessionUserIds p → u = myUserId p) →
  ∃ st', onSessionDataChanged (handleButtonClick p st i remote).2 ≫= toState = Some st'
         ∧ currentUser st' = Undefined
         ∧ ∀ q : Props,
             isMyTurn q st' = false
             ∧ Forall (λ b, disabled b = true) (render q st').
Proof.
  intros Hvalid Hi Hnone. eexists. split; [by apply delivered_move|].
  apply firstOther_Null in Hnone. unfold getOtherUserId. rewrite Hnone.
  cbn [currentUser]. split; [done|]. intros q.
  assert (isMyTurn q {| cellState := <[i := mySymbol p]> (cellState st);
                        currentUser := Undefined |} = false) as Hturn.
  { unfold isMyTurn. by apply bool_decide_eq_false. }
  split; [done|]. unfold render. rewrite Hturn. apply Forall_fmap, Forall_true. done.
Qed.

Lemma move_without_other_blocks_everyone_witness :
  ∃ st', onSessionDataChanged
           (handleButtonClick Scenario.aliceAlone (initialState Scenario.aliceAlone) 0 ∅).2
         ≫= toState = Some st'
         ∧ currentUser st' = Undefined
         ∧ ∀ q : Props,
             isMyTurn q st' = false
             ∧ Forall (λ b, disabled b = true) (render q st').
Proof.
  refine (move_without_other_blocks_everyone Scenario.aliceAlone
            (initialState Scenario.aliceAlone) 0 ∅ _ _ _).
  - apply (bool_decide_unpack _). vm_compute. exact I.
  - lia.
  - intros u Hu. apply list_elem_of_singleton in Hu. exact Hu.
Defined.

(** X20. In a roster without duplicates the lookup never goes past the
    second entry: it returns the first entry, or the second when the
    caller is the first. A member further down never gets the turn. *)
Theorem getOtherUserId_first_two (p : Props) (o : string) :
  NoDup (sessionUserIds p) → getOtherUserId p = Str o →
  (sessionUserIds p !! 0 = Some o ∧ sessionUserIds p !! 0 ≠ Some (myUserId p))
  ∨ (sessionUserIds p !! 0 = Some (myUserId p) ∧ sessionUserIds p !! 1 = Some o).
Proof.
  unfold getOtherUserId. destruct (sessionUserIds p) as [|u0 rest]; simpl; [done|].
  intros Hnd. apply NoDup_cons in Hnd as [Hu0 _].
  destruct (decide (u0 ≠ myUserId p)) as [Hne|Heq].
  - intros [= ->]. left. split; [done|]. by intros [= ?].
  - apply dec_stable in Heq as ->. destruct rest as [|u1 rest]; simpl; [done|].
    rewrite decide_True.
    + intros [= ->]. by right.
    + intros ->. apply Hu0. by left.
Qed.

Lemma getOtherUserId_first_two_witness :
  (sessionUserIds Scenario.bobProps !! 0 = Some "alice"
   ∧ sessionUserIds Scenario.bobProps !! 0 ≠ Some (myUserId Scenario.bobProps))
  ∨ (sessionUserIds Scenario.bobProps !! 0 = Some (myUserId Scenario.bobProps)
     ∧ sessionUserIds Scenario.bobProps !! 1 = Some "alice").
Proof.
  refine (getOtherUserId_first_two Scenario.bobProps "alice" _ eq_refl).
  apply (bool_decide_unpack _). vm_compute. exact I.
Defined.

(** X21. In a session of two the lookup is its own inverse: the member it
    returns to the caller gets the caller back. *)
Theorem getOtherUserId_involution (p q : Props) (a b o : string) :
  sessionUserIds p = [a; b] → sessionUserIds q = [a; b] → a ≠ b →
  myUserId p = a ∨ myUserId p = b →
  getOtherUserId p = Str o → myUserId q = o →
  getOtherUserId q = Str (myUserId p).
Proof.
  unfold getOtherUserId. intros -> -> Hab Hme.
  rewrite (firstOther_two _ a b Hab Hme). intros [= <-] Hq. rewrite Hq.
  rewrite firstOther_two; [|done|case_decide; tauto].
  f_equal. repeat case_decide; destruct Hme; congruence.
Qed.

Lemma getOtherUserId_involution_witness :
  getOtherUserId Scenario.bobProps = Str (myUserId Scenario.aliceProps).
Proof.
  refine (getOtherUserId_involution Scenario.aliceProps Scenario.bobProps
            "alice" "bob" "bob" eq_refl eq_refl _ _ eq_refl eq_refl).
  - discriminate.
  - left. reflexivity.
Defined.

End TurnBehaviour.

(** * The button-mashing component *)
Section ButtonMashBehaviour.
Import Js Firebase ButtonMash.

Lemma click_document (me : string) (remote : gmap string Value) :
  handleButtonClick me remote = {[ "user_id" := VPrim (Str me) ]}.
Proof.
  unfold handleButtonClick. apply map_eq. intros k. rewrite set_lookup.
  destruct (decide (k = "user_id")) as [->|Hk].
  - by rewrite lookup_singleton_eq.
  - by rewrite lookup_singleton_ne.
Qed.

(** X22. Before anything is delivered the message names no one. A click
    replaces whatever the location held by the clicker's id alone, so
    the last click wins, and once it is delivered the message names
    the clicker. *)
Theorem last_click_is_shown
    (getName : Value → string) (me earlier : string) (remote : gmap string Value) :
  render getName initialState = "No one clicked the button"
  ∧ handleButtonClick me (handleButtonClick earlier remote)
    = {[ "user_id" := VPrim (Str me) ]}
  ∧ ∃ st, onSessionDataChanged (handleButtonClick me (handleButtonClick earlier remote))
          = Some st
          ∧ last_user_id st = VPrim (Str me)
          ∧ render getName st = getName (VPrim (Str me)) +:+ " clicked the button".
Proof.
  split; [done|]. split; [apply click_document|].
  rewrite (click_document me). unfold onSessionDataChanged.
  rewrite decide_False.
  - eexists. split; [done|]. split; [done|].
    unfold render, Snapshot.prop. by rewrite lookup_singleton_eq.
  - intros Heq.
    assert (({[ "user_id" := VPrim (Str me) ]} : gmap string Value) !! "user_id" = None)
      as H by (by rewrite Heq, lookup_empty).
    by rewrite lookup_singleton_eq in H.
Qed.

(** X23. After the first delivery the message never falls back to "No
    one": the store holds no [null], so the test against [null]
    succeeds for every delivered document, and for one that has no
    [user_id] the name of [undefined] is asked for. *)
Theorem no_one_only_before_first_delivery
    (getName : Value → string) (data remote : gmap string Value) (st : State) :
  onSessionDataChanged (Firebase.set data remote) = Some st →
  last_user_id st ≠ VPrim Null
  ∧ render getName st = getName (last_user_id st) +:+ " clicked the button"
  ∧ (Firebase.set data remote !! "user_id" = None → last_user_id st = VPrim Undefined).
Proof.
  unfold onSessionDataChanged. case_decide; [done|]. intros [= <-]. simpl.
  assert (Snapshot.prop (Firebase.set data remote) "user_id" ≠ VPrim Null) as Hne.
  { unfold Snapshot.prop. rewrite set_lookup.
    destruct (data !! "user_id") as [[[]|]|]; simpl; done. }
  split_and!.
  - done.
  - unfold render. simpl. by rewrite decide_True.
  - intros Hnone. unfold Snapshot.prop. by rewrite Hnone.
Qed.

Lemma no_one_only_before_first_delivery_witness :
  last_user_id {| last_user_id := VPrim Undefined |} ≠ VPrim Null
  ∧ render (λ _, "Somebody") {| last_user_id := VPrim Undefined |}
    = "Somebody" +:+ " clicked the button"
  ∧ (Firebase.set Scenario.storedBoard ∅ !! "user_id" = None
     → last_user_id {| last_user_id := VPrim Undefined |} = VPrim Undefined).
Proof.
  exact (no_one_only_before_first_delivery (λ _, "Somebody") Scenario.storedBoard ∅
           {| last_user_id := VPrim Undefined |} eq_refl).
Defined.

End ButtonMashBehaviour.
